(** * porepy: source-term discretization, convergence harness, fracture centre

    A shallow embedding of

    - [src/porepy/numerics/fv/source.py] (classes [Integral] and
      [IntegralMultiDim]),
    - [examples/example4/test_mpfa_varying_k_surface_1.py] (functions [rhs],
      [solution], [permeability], [add_data], [error_p] and the order that
      the test computes),
    - [test/unit/test_fracture_center.py] ([test_frac_1]),

    together with the small part of numpy and scipy.sparse these functions
    go through.

    Numbers.  numpy's float64 values are idealised as real numbers ([R]):
    a statement over [R] is about the values the program computes when each
    arithmetic operation is exact.  Where rounding decides, the fracture
    centre is also given in binary64 ([Fracture64], on Rocq's primitive
    floats).  Cell and face counts, indices and lengths are natural numbers.

    Errors.  A Python call either returns or raises; this is the [result]
    type, with the exceptions the embedded code can raise. *)

From Stdlib Require Import Floats.
From Stdlib Require Import Reals Lra Permutation.
From stdpp Require Import base gmap strings list.

Local Open Scope string_scope.

(** Decimal literals of binary64 values stand for the nearest value. *)
Set Warnings "-inexact-float".

(** ** Exceptions and results *)

Inductive exn : Type :=
| AssertionError (msg : string)
| KeyError (key : string)
| AttributeError (name : string)
| TypeError
| ValueError
| IndexError.

Inductive result (A : Type) : Type :=
| Ok (a : A)
| Raise (e : exn).
Arguments Ok {A} a.
Arguments Raise {A} e.

#[global] Instance result_ret : MRet result := λ A a, Ok a.
#[global] Instance result_bind : MBind result := λ A B f r,
  match r with
  | Ok a => f a
  | Raise e => Raise e
  end.

(** What a Python function hands back when the claim is about the kind of
    value: an [int], or [None] when the body ends without a [return]. *)
Inductive pyval : Type :=
| PyNone
| PyInt (n : nat).

(** [d[key]] on a dict with string keys. *)
Definition getitem {V : Type} (d : gmap string V) (key : string) : result V :=
  match d !! key with
  | Some v => Ok v
  | None => Raise (KeyError key)
  end.

(** ** The part of numpy that is used

    A one-dimensional array is a list, a two-dimensional array the list of
    its rows. *)

Abbreviation ndarray1 := (list R).
Abbreviation ndarray2 := (list (list R)).

(** [a.size] of a one-dimensional array. *)
Definition size (a : ndarray1) : nat := length a.

(** [np.zeros(n)]. *)
Definition np_zeros (n : nat) : ndarray1 := replicate n 0%R.

(** [a (op) b] on one-dimensional arrays: element by element, an array of
    one element is stretched to the other's length, any other pair of
    different lengths does not broadcast. *)
Definition np_binop (f : R → R → R) (a b : ndarray1) : result ndarray1 :=
  if decide (length a = length b) then Ok (zip_with f a b)
  else if decide (length a = 1) then Ok (map (f (hd 0%R a)) b)
  else if decide (length b = 1) then Ok (map (λ x, f x (hd 0%R b)) a)
  else Raise ValueError.

(** [np.abs(a)], [np.power(a, n)], [np.sum(a)], [np.sqrt(x)]. *)
Definition np_abs (a : ndarray1) : ndarray1 := map Rabs a.
Definition np_power (a : ndarray1) (n : nat) : ndarray1 := map (λ x, (x ^ n)%R) a.
Definition np_sum (a : ndarray1) : R := foldr Rplus 0%R a.
Definition np_sqrt (x : R) : R := sqrt x.

(** Number of columns of a two-dimensional array given by its rows. *)
Definition ncols (m : ndarray2) : nat := length (hd [] m).

(** [m.T]: row [j] of the transpose is column [j] of [m]. *)
Definition transpose (m : ndarray2) : ndarray2 :=
  map (λ j, map (λ row, nth j row 0%R) m) (seq 0 (ncols m)).

(** [row[idx]] with an index array: out of range raises. *)
Definition take (row : ndarray1) (idx : list nat) : result ndarray1 :=
  mapM (λ j, match row !! j with
             | Some x => Ok x
             | None => Raise IndexError
             end) idx.

(** [m[:, idx]]: the columns listed in [idx], in that order. *)
Definition take_columns (m : ndarray2) (idx : list nat) : result ndarray2 :=
  mapM (λ row, take row idx) m.

(** [a[idx] = vals] with an index array: the indices are checked first, the
    values must be as many as the indices (or a single one), and the
    assignments are then done from left to right. *)
Definition np_setitem (a : ndarray1) (idx : list nat) (vals : ndarray1)
  : result ndarray1 :=
  if decide (Forall (λ i, i < length a) idx) then
    if decide (length vals = length idx) then
      Ok (foldl (λ acc iv, <[iv.1 := iv.2]> acc) a (zip idx vals))
    else if decide (length vals = 1) then
      Ok (foldl (λ acc i, <[i := hd 0%R vals]> acc) a idx)
    else Raise ValueError
  else Raise IndexError.

(** A call of a function of three arguments on an unpacked point [pt],
    which must have exactly three entries. *)
Definition apply3 {A : Type} (f : R → R → R → A) (pt : ndarray1) : result A :=
  match pt with
  | [x; y; z] => Ok (f x y z)
  | _ => Raise TypeError
  end.

(** [np.allclose(a, b)] on two-dimensional arrays of one shape, with
    numpy's default tolerances. *)
Definition rtol : R := (1 / 100000)%R.
Definition atol : R := (1 / 100000000)%R.
Definition isclose (x y : R) : Prop := (Rabs (x - y) <= atol + rtol * Rabs y)%R.
Definition np_allclose (a b : ndarray2) : Prop := Forall2 (Forall2 isclose) a b.

(** ** The part of scipy.sparse that is used

    A matrix in compressed-column form: the entries of column [j] are
    [data[k]] at row [indices[k]] for [indptr[j] <= k < indptr[j+1]]. *)

Record csc_matrix : Type := {
  shape : nat * nat;
  data : ndarray1;
  indices : list nat;
  indptr : list nat
}.

(** [sps.csc_matrix((m, n))]: nothing stored. *)
Definition csc_matrix_empty (sh : nat * nat) : csc_matrix :=
  {| shape := sh; data := []; indices := []; indptr := replicate (S sh.2) 0 |}.

(** [A.nnz] and [A[i, j]] (stored entries at one place add up). *)
Definition nnz (A : csc_matrix) : nat := length (data A).
Definition csc_get (A : csc_matrix) (i j : nat) : R :=
  let lo := nth j (indptr A) 0 in
  let hi := nth (S j) (indptr A) 0 in
  np_sum (map (λ k, if decide (nth k (indices A) 0 = i)
                    then nth k (data A) 0%R else 0%R)
              (seq lo (hi - lo))).

(** ** Grids and parameters

    The grid, tensor, boundary-condition and parameter classes live in
    modules of porepy that are not among the embedded sources; they are
    records holding what the embedded code reads and writes. *)

(** Modelled from the spec: class [Grid] (porepy.grids) is not among the
    sources.  The fields are the attributes the spec lists for the grid
    interface: [num_cells], [num_faces], [cell_centers] (3 x num_cells),
    [cell_volumes], [face_centers] (3 x num_faces) and the result of
    [get_all_boundary_faces()]. *)
Record Grid : Type := {
  num_cells : nat;
  num_faces : nat;
  cell_centers : ndarray2;
  cell_volumes : ndarray1;
  face_centers : ndarray2;
  get_all_boundary_faces : list nat
}.

(** Modelled from the spec: [tensor.SecondOrder(dim, kxx)] is not among the
    sources; a per-cell isotropic tensor given by its dimension and the
    per-cell scalar. *)
Record SecondOrder : Type := {
  tensor_dim : nat;
  kxx : ndarray1
}.

(** Modelled from the spec: [BoundaryCondition(g, faces, cond)] is not among
    the sources; the boundary-condition type per boundary face:
    [bc_cond[k]] is the type of face [bc_faces[k]]. *)
Record BoundaryCondition : Type := {
  bc_grid : Grid;
  bc_faces : list nat;
  bc_cond : list string
}.

(** Modelled from the spec: class [Parameters] (porepy.params.data) is not
    among the sources.  A per-grid bundle keyed by a physics label, with a
    setter per kind of parameter; the getter of the source is keyed by the
    physics label of the discretizer that asks.  The spec does not say what
    the getter does when nothing was stored under the label: here it
    raises. *)
Record Parameters : Type := {
  param_grid : Grid;
  tensors : gmap string SecondOrder;
  sources : gmap string ndarray1;
  bcs : gmap string BoundaryCondition;
  bc_vals : gmap string ndarray1
}.

Definition Parameters_init (g : Grid) : Parameters :=
  {| param_grid := g; tensors := ∅; sources := ∅; bcs := ∅; bc_vals := ∅ |}.

Definition set_tensor (label : string) (t : SecondOrder) (param : Parameters)
  : Parameters :=
  {| param_grid := param_grid param; tensors := <[label := t]> (tensors param);
     sources := sources param; bcs := bcs param; bc_vals := bc_vals param |}.

Definition set_source (label : string) (v : ndarray1) (param : Parameters)
  : Parameters :=
  {| param_grid := param_grid param; tensors := tensors param;
     sources := <[label := v]> (sources param);
     bcs := bcs param; bc_vals := bc_vals param |}.

Definition set_bc (label : string) (bc : BoundaryCondition) (param : Parameters)
  : Parameters :=
  {| param_grid := param_grid param; tensors := tensors param;
     sources := sources param; bcs := <[label := bc]> (bcs param);
     bc_vals := bc_vals param |}.

Definition set_bc_val (label : string) (v : ndarray1) (param : Parameters)
  : Parameters :=
  {| param_grid := param_grid param; tensors := tensors param;
     sources := sources param; bcs := bcs param;
     bc_vals := <[label := v]> (bc_vals param) |}.

(** The data of a grid: the dict [{'param': param}]. *)
Abbreviation Data := (gmap string Parameters).

(** ** source.py *)

Module Integral.

Record t : Type := { physics : string }.

(** [Integral(physics='flow')]. *)
Definition init (physics : string) : t := {| physics := physics |}.
Definition init_default : t := init "flow".

(** [param.get_source(self)], see [Parameters]. *)
Definition get_source (param : Parameters) (self : t) : result ndarray1 :=
  match sources param !! physics self with
  | Some s => Ok s
  | None => Raise (AttributeError "source")
  end.

Definition ndof (self : t) (g : Grid) : nat := num_cells g.

Definition matrix_rhs (self : t) (g : Grid) (data : Data)
  : result (csc_matrix * ndarray1) :=
  param ← getitem data "param";
  sources ← get_source param self;
  let lhs := csc_matrix_empty (num_cells g, num_cells g) in
  if decide (size sources = num_cells g)
  then Ok (lhs, sources)
  else Raise (AssertionError "There should be one soure value for each cell").

End Integral.

(** A grid bucket, as far as [for g, _ in gb] sees it: the grids with
    their data. *)
Abbreviation GridBucket := (list (Grid * Data)).

Module IntegralMultiDim.

Record t : Type := { physics : string; discr : Integral.t }.

Definition init (physics : string) : t :=
  {| physics := physics; discr := Integral.init physics |}.

(** The local variable [ndof] when the loop of [ndof] is over. *)
Definition ndof_local (gb : GridBucket) : nat :=
  foldl (λ ndof g_d, ndof + num_cells g_d.1) 0 gb.

(** [ndof(self, gb)]: the loop runs, and the body ends there. *)
Definition ndof (self : t) (gb : GridBucket) : pyval :=
  let ndof := ndof_local gb in
  PyNone.

End IntegralMultiDim.

(** ** examples/example4/test_mpfa_varying_k_surface_1.py *)

Module Harness.

Local Open Scope R_scope.

Definition rhs (x y z : R) : R :=
  8 * z * (125 * x ^ 2 + 200 * y ^ 2 + 425 * z ^ 2 + 2).

Definition solution (x y z : R) : R :=
  x ^ 2 * z + 4 * y ^ 2 * sin (PI * y) - 3 * z ^ 3.

Definition permeability (x y z : R) : R :=
  1 + 100 * (x ^ 2 + y ^ 2 + z ^ 2).

Local Close Scope R_scope.

(** Define the permeability, apertures, boundary conditions. *)
Definition add_data (g : Grid) : result Data :=
  let param := Parameters_init g in
  (* Permeability *)
  kxx ← mapM (apply3 permeability) (transpose (cell_centers g));
  let param := set_tensor "flow" {| tensor_dim := 3; kxx := kxx |} param in
  (* Source term *)
  source ← mapM (apply3 rhs) (transpose (cell_centers g));
  weighted ← np_binop Rmult (cell_volumes g) source;
  let param := set_source "flow" weighted param in
  (* Boundaries *)
  let bound_faces := get_all_boundary_faces g in
  bound_face_centers ← take_columns (face_centers g) bound_faces;
  let labels := replicate (length bound_faces) "dir" in
  let bc_val := np_zeros (num_faces g) in
  vals ← mapM (apply3 solution) (transpose bound_face_centers);
  bc_val ← np_setitem bc_val bound_faces vals;
  let param :=
    set_bc "flow" {| bc_grid := g; bc_faces := bound_faces; bc_cond := labels |}
           param in
  let param := set_bc_val "flow" bc_val param in
  Ok ({[ "param" := param ]} : Data).

Definition error_p (g : Grid) (p : ndarray1) : result R :=
  sol ← mapM (apply3 solution) (transpose (cell_centers g));
  diff ← np_binop Rminus p sol;
  weighted ← np_binop Rmult (np_power (np_abs diff) 2) (cell_volumes g);
  Ok (np_sqrt (np_sum weighted)).

End Harness.

(** The test of the convergence order, from where [main] has returned: the
    two samples (largest cell diameter, error) are its arguments. *)
Module BasicsTest.

Local Open Scope R_scope.

Definition known_order : R := 199094280061 / 100000000000.

Definition order (diam_10 error_10 diam_20 error_20 : R) : R :=
  ln (error_10 / error_20) / ln (diam_10 / diam_20).

(** The assertion of [test_mpfa_varing_k_surface_1]. *)
Definition test_mpfa_varing_k_surface_1 (sample_10 sample_20 : R * R) : Prop :=
  isclose (order sample_10.1 sample_10.2 sample_20.1 sample_20.2) known_order.

End BasicsTest.

(** ** The fracture centre *)

(** Modelled from the spec: class [Fracture] (porepy.fracs.fractures) is not
    among the sources, only its test is.  The spec gives the centre as the
    simple arithmetic mean of the vertex coordinates along each axis: for a
    vertex matrix of shape 3 x M the mean over the M columns, returned as a
    3 x 1 column; switching convexity checking off does not change it. *)
Module Fracture.

(** [np.mean(p, axis=1)]: the mean of every row. *)
Definition np_mean_axis1 (p : ndarray2) : ndarray1 :=
  map (λ row, (np_sum row / INR (length row))%R) p.

(** [v.reshape((-1, 1))]: a column. *)
Definition reshape_column (v : ndarray1) : ndarray2 := map (λ x, [x]) v.

Definition compute_center (p : ndarray2) : ndarray2 :=
  reshape_column (np_mean_axis1 p).

Record t : Type := { p : ndarray2; center : ndarray2 }.

(** [Fracture(points, check_convexity=False)]. *)
Definition init (points : ndarray2) : t :=
  {| p := points; center := compute_center points |}.

End Fracture.

(** Modelled from the spec: the same centre in binary64, the floating-point
    mean that the spec names.  The entries of a row are added one after the
    other, starting from zero, and the sum is divided by the number of
    columns; every operation rounds to nearest, as IEEE 754 has it. *)
Module Fracture64.

Definition np_sum (row : list float) : float := foldl PrimFloat.add 0%float row.

Definition of_nat (n : nat) : float :=
  PrimFloat.of_uint63 (Uint63.of_Z (Z.of_nat n)).

(** [np.mean(p, axis=1)]. *)
Definition np_mean_axis1 (p : list (list float)) : list float :=
  map (λ row, PrimFloat.div (np_sum row) (of_nat (length row))) p.

(** [v.reshape((-1, 1))]. *)
Definition reshape_column (v : list float) : list (list float) :=
  map (λ x, [x]) v.

Definition compute_center (p : list (list float)) : list (list float) :=
  reshape_column (np_mean_axis1 p).

(** [m[:, sigma]] for an index list that is in range. *)
Definition permute_columns (sigma : list nat) (m : list (list float))
  : list (list float) :=
  map (λ row, map (λ j, nth j row 0%float) sigma) m.

End Fracture64.

(** ** test/unit/test_fracture_center.py *)

Module TestFractureCenters.

Local Open Scope R_scope.

Definition f_1 : Fracture.t :=
  Fracture.init [[0; 2; 2; 0];
                 [0; 2; 2; 0];
                 [-1; -1; 1; 1]].

Definition c_known : ndarray2 := Fracture.reshape_column [1; 1; 0].

(** The assertion of [test_frac_1]. *)
Definition test_frac_1 : Prop := np_allclose c_known (Fracture.center f_1).

End TestFractureCenters.

(** ** What the statements are written with *)

(** The sum of [f 0], ..., [f (n - 1)]. *)
Fixpoint sum_upto (n : nat) (f : nat → R) : R :=
  match n with
  | 0 => 0%R
  | S k => (sum_upto k f + f k)%R
  end.

(** Entry [(i, j)] of a two-dimensional array. *)
Definition entry (m : ndarray2) (i j : nat) : R := nth j (nth i m []) 0%R.

(** A two-dimensional array has [r] rows of [c] entries each. *)
Definition has_shape (m : ndarray2) (r c : nat) : Prop :=
  length m = r ∧ Forall (λ row, length row = c) m.

(** The arrays of a grid have the shapes the grid interface gives them, and
    the boundary faces are faces of the grid. *)
Definition grid_ok (g : Grid) : Prop :=
  has_shape (cell_centers g) 3 (num_cells g) ∧
  length (cell_volumes g) = num_cells g ∧
  has_shape (face_centers g) 3 (num_faces g) ∧
  Forall (λ f, f < num_faces g) (get_all_boundary_faces g).

(** The manufactured functions at the centre of cell [i] and of face [f]. *)
Definition at_cell (fn : R → R → R → R) (g : Grid) (i : nat) : R :=
  fn (entry (cell_centers g) 0 i) (entry (cell_centers g) 1 i)
     (entry (cell_centers g) 2 i).
Definition at_face (fn : R → R → R → R) (g : Grid) (f : nat) : R :=
  fn (entry (face_centers g) 0 f) (entry (face_centers g) 1 f)
     (entry (face_centers g) 2 f).

(** [m[:, sigma]] for an index list that is in range: the columns of [m]
    in the order [sigma]. *)
Definition permute_columns (sigma : list nat) (m : ndarray2) : ndarray2 :=
  map (λ row, map (λ j, nth j row 0%R) sigma) m.

(** ** Sample inputs *)

Module Samples.

Local Open Scope R_scope.

(** The unit square cut into two triangles along its diagonal and turned
    into the plane [y = 0]: two cells, five faces, the diagonal (face 2)
    is the only inner face. *)
Definition two_triangles : Grid :=
  {| num_cells := 2;
     num_faces := 5;
     cell_centers := [[2 / 3; 1 / 3];
                      [0; 0];
                      [1 / 3; 2 / 3]];
     cell_volumes := [1 / 2; 1 / 2];
     face_centers := [[1 / 2; 1; 1 / 2; 1 / 2; 0];
                      [0; 0; 0; 0; 0];
                      [0; 1 / 2; 1 / 2; 1; 1 / 2]];
     get_all_boundary_faces := [0; 1; 3; 4]%nat |}.

(** A parameter bundle with one source value per cell of
    [two_triangles], and one with a value too many. *)
Definition param_fit : Parameters :=
  set_source "flow" [3; 5] (Parameters_init two_triangles).
Definition param_long : Parameters :=
  set_source "flow" [3; 5; 7] (Parameters_init two_triangles).

Definition data_fit : Data := {[ "param" := param_fit ]}.
Definition data_long : Data := {[ "param" := param_long ]}.

(** A bucket of two grids with two cells each. *)
Definition bucket : GridBucket :=
  [(two_triangles, data_fit); (two_triangles, data_fit)].

(** A cell-centred field on [two_triangles]. *)
Definition field : ndarray1 := [1; 2].



(** The vertices of [test_frac_1] in binary64. *)
Definition f_1_64 : list (list float) :=
  [[0; 2; 2; 0];
   [0; 2; 2; 0];
   [-1; -1; 1; 1]]%float.

(** [two_triangles] with the cell centres given by two coordinates only,
    with a cell volume too many, and with a boundary face that is no face
    of the grid. *)
Definition flat_centers : Grid :=
  {| num_cells := 2;
     num_faces := 5;
     cell_centers := [[2 / 3; 1 / 3];
                      [1 / 3; 2 / 3]];
     cell_volumes := cell_volumes two_triangles;
     face_centers := face_centers two_triangles;
     get_all_boundary_faces := get_all_boundary_faces two_triangles |}.

Definition spare_volume : Grid :=
  {| num_cells := 2;
     num_faces := 5;
     cell_centers := cell_centers two_triangles;
     cell_volumes := [1 / 2; 1 / 2; 1 / 2];
     face_centers := face_centers two_triangles;
     get_all_boundary_faces := get_all_boundary_faces two_triangles |}.

Definition stray_face : Grid :=
  {| num_cells := 2;
     num_faces := 5;
     cell_centers := cell_centers two_triangles;
     cell_volumes := cell_volumes two_triangles;
     face_centers := face_centers two_triangles;
     get_all_boundary_faces := [0; 1; 3; 7]%nat |}.

End Samples.

(** ** The single-grid source discretizer *)

Section IntegralFacts.

Variables (self : Integral.t) (g : Grid) (data : Data).
Variables (param : Parameters) (s : ndarray1).
Hypothesis Hparam : data !! "param" = Some param.
Hypothesis Hsource : sources param !! Integral.physics self = Some s.

(** Up to the assertion, [matrix_rhs] is decided by the length of the
    stored vector. *)
Lemma matrix_rhs_unfold :
  Integral.matrix_rhs self g data =
  if decide (length s = num_cells g)
  then Ok (csc_matrix_empty (num_cells g, num_cells g), s)
  else Raise (AssertionError "There should be one soure value for each cell").
Proof using Hparam Hsource.
  unfold Integral.matrix_rhs, getitem, Integral.get_source.
  rewrite Hparam. cbn. rewrite Hsource. reflexivity.
Qed.

End IntegralFacts.

Lemma nth_replicate_same {A : Type} (x : A) (n j : nat) :
  nth j (replicate n x) x = x.
Proof.
  revert j. induction n as [|n IH]; intros [|j]; cbn; auto.
Qed.

(** An empty compressed-column matrix has no stored entry anywhere. *)
Lemma csc_matrix_empty_get (sh : nat * nat) (i j : nat) :
  csc_get (csc_matrix_empty sh) i j = 0%R.
Proof.
  unfold csc_get, csc_matrix_empty. cbn [indptr].
  rewrite !nth_replicate_same. reflexivity.
Qed.

(** With one stored value per cell, [matrix_rhs] returns the empty matrix
    and the stored vector. *)
Lemma matrix_rhs_returns_stored
    (self : Integral.t) (g : Grid) (data : Data)
    (param : Parameters) (s : ndarray1) :
  data !! "param" = Some param →
  sources param !! Integral.physics self = Some s →
  length s = num_cells g →
  ∃ lhs : csc_matrix, Integral.matrix_rhs self g data = Ok (lhs, s).
Proof.
  intros Hparam Hsource Hlen.
  exists (csc_matrix_empty (num_cells g, num_cells g)).
  rewrite (matrix_rhs_unfold self g data param s Hparam Hsource).
  destruct (decide (length s = num_cells g)); [reflexivity|contradiction].
Qed.

(** C1: when the parameter bundle of [data] holds, under the physics label
    of the discretizer, a source vector [s] with one value per cell of [g],
    [Integral.matrix_rhs] returns a pair [(lhs, rhs)] where [lhs] is the
    sparse zero matrix of shape (num_cells, num_cells) and [rhs] is [s]
    itself. *)
Theorem matrix_rhs_zero_matrix_and_source
    (self : Integral.t) (g : Grid) (data : Data)
    (param : Parameters) (s : ndarray1) :
  data !! "param" = Some param →
  sources param !! Integral.physics self = Some s →
  length s = num_cells g →
  ∃ lhs : csc_matrix,
    Integral.matrix_rhs self g data = Ok (lhs, s) ∧
    shape lhs = (num_cells g, num_cells g) ∧
    nnz lhs = 0 ∧
    ∀ i j : nat, csc_get lhs i j = 0%R.
Proof.
  intros Hparam Hsource Hlen.
  exists (csc_matrix_empty (num_cells g, num_cells g)).
  split; [|split; [reflexivity|split; [reflexivity|]]].
  - rewrite (matrix_rhs_unfold self g data param s Hparam Hsource).
    destruct (decide (length s = num_cells g)); [reflexivity|contradiction].
  - intros i j. apply csc_matrix_empty_get.
Qed.

Lemma matrix_rhs_zero_matrix_and_source_witness :
  ∃ lhs : csc_matrix,
    Integral.matrix_rhs Integral.init_default Samples.two_triangles
                        Samples.data_fit = Ok (lhs, [3; 5]%R) ∧
    shape lhs = (2, 2) ∧
    nnz lhs = 0 ∧
    ∀ i j : nat, csc_get lhs i j = 0%R.
Proof.
  apply (matrix_rhs_zero_matrix_and_source
           Integral.init_default Samples.two_triangles Samples.data_fit
           Samples.param_fit [3; 5]%R); reflexivity.
Defined.

(** C2: when the stored source vector [s] does not have one value per cell
    of [g], [Integral.matrix_rhs] raises the assertion error of the
    dimension check; the call yields the exception and no pair. *)
Theorem matrix_rhs_length_mismatch_raises
    (self : Integral.t) (g : Grid) (data : Data)
    (param : Parameters) (s : ndarray1) :
  data !! "param" = Some param →
  sources param !! Integral.physics self = Some s →
  length s ≠ num_cells g →
  Integral.matrix_rhs self g data =
    Raise (AssertionError "There should be one soure value for each cell") ∧
  ∀ out, Integral.matrix_rhs self g data ≠ Ok out.
Proof.
  intros Hparam Hsource Hlen.
  rewrite (matrix_rhs_unfold self g data param s Hparam Hsource).
  destruct (decide (length s = num_cells g)); [contradiction|].
  split; [reflexivity|discriminate].
Qed.

Lemma matrix_rhs_length_mismatch_raises_witness :
  Integral.matrix_rhs Integral.init_default Samples.two_triangles
                      Samples.data_long =
    Raise (AssertionError "There should be one soure value for each cell") ∧
  ∀ out, Integral.matrix_rhs Integral.init_default Samples.two_triangles
                             Samples.data_long ≠ Ok out.
Proof.
  apply (matrix_rhs_length_mismatch_raises
           Integral.init_default Samples.two_triangles Samples.data_long
           Samples.param_long [3; 5; 7]%R); [reflexivity|reflexivity|].
  cbn. lia.
Defined.

(** C10: [Integral.ndof] of a grid is the grid's number of cells, whatever
    physics label the discretizer was built with. *)
Theorem integral_ndof_is_num_cells (physics : string) (g : Grid) :
  Integral.ndof (Integral.init physics) g = num_cells g.
Proof. reflexivity. Qed.

(** ** The multi-grid source discretizer *)

(** The loop of [IntegralMultiDim.ndof] adds up the cell counts. *)
Lemma ndof_local_sum (gb : GridBucket) :
  IntegralMultiDim.ndof_local gb = sum_list (map (λ g_d, num_cells g_d.1) gb).
Proof.
  unfold IntegralMultiDim.ndof_local.
  assert (H : ∀ acc, foldl (λ ndof (g_d : Grid * Data), ndof + num_cells g_d.1) acc gb
                     = acc + sum_list (map (λ g_d, num_cells g_d.1) gb)).
  { induction gb as [|[g d] gb IH]; intros acc; cbn.
    - lia.
    - rewrite IH. cbn. lia. }
  apply (H 0).
Qed.

(** [IntegralMultiDim.ndof] never hands the sum back. *)
Lemma ndof_multidim_none (self : IntegralMultiDim.t) (gb : GridBucket) :
  IntegralMultiDim.ndof self gb = PyNone.
Proof. reflexivity. Qed.

(** C4, on the code: on a bucket of two grids with two cells each the loop
    of [IntegralMultiDim.ndof] has counted 4, the sum of the cell counts,
    and the call returns [None] and not that number. *)
Theorem ndof_multidim_returns_none_on_bucket :
  IntegralMultiDim.ndof_local Samples.bucket = 4 ∧
  sum_list (map (λ g_d, num_cells g_d.1) Samples.bucket) = 4 ∧
  IntegralMultiDim.ndof (IntegralMultiDim.init "flow") Samples.bucket = PyNone ∧
  IntegralMultiDim.ndof (IntegralMultiDim.init "flow") Samples.bucket ≠ PyInt 4.
Proof.
  repeat split; discriminate.
Qed.

(** ** Lists and arrays *)

(** A comprehension whose body never raises is a [map]. *)
Lemma mapM_ok_map {A B : Type} (f : A → result B) (h : A → B) (l : list A) :
  Forall (λ x, f x = Ok (h x)) l → mapM f l = Ok (map h l).
Proof.
  induction 1 as [|x l Hx _ IH]; cbn.
  - reflexivity.
  - rewrite Hx. cbn. rewrite IH. reflexivity.
Qed.

Lemma has_shape_three (m : ndarray2) (n : nat) :
  has_shape m 3 n →
  ∃ r0 r1 r2, m = [r0; r1; r2] ∧ length r0 = n ∧ length r1 = n ∧ length r2 = n.
Proof.
  intros [Hlen Hrows].
  destruct m as [|r0 [|r1 [|r2 [|r3 m]]]]; try discriminate.
  exists r0, r1, r2.
  inversion Hrows as [|? ? H0 Hrows1]; subst.
  inversion Hrows1 as [|? ? H1 Hrows2]; subst.
  inversion Hrows2 as [|? ? H2 _]; subst.
  auto.
Qed.

(** The comprehension [[fn( *pt) for pt in m.T]] over an array with three
    rows applies [fn] to every column. *)
Lemma comprehension_over_columns {A : Type} (fn : R → R → R → A)
    (m : ndarray2) (n : nat) :
  has_shape m 3 n →
  mapM (apply3 fn) (transpose m) =
  Ok (map (λ i, fn (entry m 0 i) (entry m 1 i) (entry m 2 i)) (seq 0 n)).
Proof.
  intros Hm. destruct (has_shape_three m n Hm) as (r0 & r1 & r2 & -> & H0 & _ & _).
  unfold transpose, ncols. cbn [hd]. rewrite H0.
  rewrite (mapM_ok_map _ (λ pt, fn (nth 0 pt 0%R) (nth 1 pt 0%R) (nth 2 pt 0%R))).
  - rewrite map_map. reflexivity.
  - apply Forall_forall. intros pt Hpt. apply list_elem_of_In, in_map_iff in Hpt as (j & <- & _).
    reflexivity.
Qed.

(** Reading an entry of a list built over the indices [0 .. n-1]. *)
Lemma lookup_map_seq {A : Type} (h : nat → A) (n i : nat) :
  i < n → map h (seq 0 n) !! i = Some (h i).
Proof.
  intros Hi. change (map h (seq 0 n)) with (h <$> seq 0 n).
  rewrite list_lookup_fmap, lookup_seq_lt by lia. reflexivity.
Qed.

(** [nth] with a default and lookup agree in range. *)
Lemma lookup_nth_default (l : ndarray1) (i : nat) :
  i < length l → l !! i = Some (nth i l 0%R).
Proof.
  revert i. induction l as [|x l IH]; intros [|i] Hi; cbn in *; try lia.
  - reflexivity.
  - apply IH. lia.
Qed.

(** The sum of a list built over the indices [0 .. n-1]. *)
Lemma np_sum_map_seq (h : nat → R) (n : nat) :
  np_sum (map h (seq 0 n)) = sum_upto n h.
Proof.
  induction n as [|n IH].
  - reflexivity.
  - rewrite seq_S, map_app. cbn [sum_upto]. rewrite <- IH.
    unfold np_sum. rewrite foldr_app. cbn.
    generalize (map h (seq 0 n)). intros l.
    induction l as [|x l IHl]; cbn.
    + lra.
    + rewrite IHl. lra.
Qed.

(** An element-wise operation on a list and a list built over its indices. *)
Lemma zip_with_map_seq (f : R → R → R) (h : nat → R) (a : ndarray1) :
  zip_with f a (map h (seq 0 (length a))) =
  map (λ i, f (nth i a 0%R) (h i)) (seq 0 (length a)).
Proof.
  apply list_eq. intros i.
  destruct (decide (i < length a)) as [Hi|Hi].
  - rewrite lookup_map_seq by lia.
    rewrite lookup_zip_with, (lookup_nth_default a i Hi). cbn.
    rewrite lookup_map_seq by lia. reflexivity.
  - rewrite !lookup_ge_None_2; [reflexivity| |].
    + rewrite length_map, length_seq. lia.
    + rewrite length_zip_with, length_map, length_seq. lia.
Qed.

Lemma zip_with_map_seq_r (f : R → R → R) (h : nat → R) (a : ndarray1) :
  zip_with f (map h (seq 0 (length a))) a =
  map (λ i, f (h i) (nth i a 0%R)) (seq 0 (length a)).
Proof.
  rewrite <- zip_with_flip. apply (zip_with_map_seq (flip f)).
Qed.

(** Arrays of one length combine element by element. *)
Lemma np_binop_same_length (f : R → R → R) (a b : ndarray1) :
  length a = length b → np_binop f a b = Ok (zip_with f a b).
Proof.
  intros H. unfold np_binop. destruct (decide (length a = length b)); [reflexivity|contradiction].
Qed.

(** Picking entries of a row at indices that are in range. *)
Lemma take_in_range (row : ndarray1) (idx : list nat) :
  Forall (λ j, j < length row) idx →
  take row idx = Ok (map (λ j, nth j row 0%R) idx).
Proof.
  intros Hidx. unfold take. apply mapM_ok_map.
  eapply Forall_impl; [exact Hidx|]. cbn. intros j Hj.
  rewrite (lookup_nth_default row j Hj). reflexivity.
Qed.

(** Picking columns of a three-row array at indices that are in range. *)
Lemma take_columns_in_range (m : ndarray2) (n : nat) (idx : list nat) :
  has_shape m 3 n →
  Forall (λ j, j < n) idx →
  take_columns m idx = Ok (permute_columns idx m).
Proof.
  intros Hm Hidx.
  destruct (has_shape_three m n Hm) as (r0 & r1 & r2 & -> & H0 & H1 & H2).
  unfold take_columns. apply mapM_ok_map.
  apply Forall_cons_2; [apply take_in_range; rewrite H0; exact Hidx|].
  apply Forall_cons_2; [apply take_in_range; rewrite H1; exact Hidx|].
  apply Forall_cons_2; [apply take_in_range; rewrite H2; exact Hidx|].
  apply Forall_nil_2.
Qed.

Lemma permute_columns_shape (m : ndarray2) (r : nat) (idx : list nat) :
  length m = r → has_shape (permute_columns idx m) r (length idx).
Proof.
  intros Hr. unfold has_shape, permute_columns. split.
  - rewrite length_map. exact Hr.
  - apply Forall_forall. intros row Hrow.
    apply list_elem_of_In, in_map_iff in Hrow as (row' & <- & _).
    apply length_map.
Qed.

Lemma permute_columns_entry (m : ndarray2) (idx : list nat) (a k : nat) :
  a < length m → k < length idx →
  entry (permute_columns idx m) a k = entry m a (nth k idx 0).
Proof.
  intros Ha Hk. unfold entry, permute_columns.
  rewrite (nth_indep _ [] (map (λ j, nth j [] 0%R) idx)) by (rewrite length_map; lia).
  rewrite (map_nth (λ row, map (λ j, nth j row 0%R) idx) m []).
  rewrite (nth_indep _ 0%R (nth 0 (nth a m []) 0%R)) by (rewrite length_map; lia).
  rewrite (map_nth (λ j, nth j (nth a m []) 0%R) idx 0).
  reflexivity.
Qed.

(** Mapping over the positions of a list is mapping over the list. *)
Lemma map_positions {A : Type} (h : nat → A) (idx : list nat) :
  map (λ k, h (nth k idx 0)) (seq 0 (length idx)) = map h idx.
Proof.
  apply list_eq. intros k.
  destruct (decide (k < length idx)) as [Hk|Hk].
  - rewrite lookup_map_seq by exact Hk.
    change (map h idx) with (h <$> idx). rewrite list_lookup_fmap.
    destruct (lookup_lt_is_Some_2 idx k Hk) as [f Hf].
    rewrite Hf. cbn. f_equal. f_equal.
    apply nth_lookup_Some with (d := 0) in Hf. exact Hf.
  - rewrite !lookup_ge_None_2; [reflexivity| |].
    + rewrite length_map. lia.
    + rewrite length_map, length_seq. lia.
Qed.

(** The assignment [a[idx] = [h(f) for f in idx]]: the places listed in
    [idx] hold [h] of their index, the others are as before. *)
Lemma setitem_fold (h : nat → R) (idx : list nat) :
  ∀ a : ndarray1,
    Forall (λ i, i < length a) idx →
    let res := foldl (λ acc (iv : nat * R), <[iv.1 := iv.2]> acc) a
                     (zip idx (map h idx)) in
    length res = length a ∧
    ∀ f, res !! f = if decide (f ∈ idx) then Some (h f) else a !! f.
Proof.
  induction idx as [|i idx IH]; intros a Hidx; cbn.
  - split; [reflexivity|]. intros f.
    destruct (decide (f ∈ [])) as [Hf|_]; [inversion Hf|reflexivity].
  - inversion Hidx as [|? ? Hi Hrest]; subst.
    destruct (IH (<[i := h i]> a)) as [Hlen Hget].
    { rewrite length_insert. exact Hrest. }
    split.
    + rewrite Hlen. apply length_insert.
    + intros f. rewrite Hget.
      destruct (decide (f ∈ idx)) as [Hf|Hf].
      * rewrite decide_True by (right; exact Hf). reflexivity.
      * destruct (decide (f = i)) as [->|Hne].
        -- rewrite decide_True by left.
           apply list_lookup_insert_eq. exact Hi.
        -- rewrite decide_False by (intros Hin; inversion Hin; subst; auto).
           apply list_lookup_insert_ne. congruence.
Qed.

Lemma np_setitem_in_range (h : nat → R) (a : ndarray1) (idx : list nat) :
  Forall (λ i, i < length a) idx →
  ∃ res, np_setitem a idx (map h idx) = Ok res ∧
         length res = length a ∧
         ∀ f, res !! f = if decide (f ∈ idx) then Some (h f) else a !! f.
Proof.
  intros Hidx. unfold np_setitem.
  rewrite decide_True by exact Hidx.
  rewrite decide_True by apply length_map.
  eexists. split; [reflexivity|]. apply (setitem_fold h idx a Hidx).
Qed.

(** ** The convergence harness *)

Section AddData.

Variable g : Grid.
Hypothesis Hg : grid_ok g.

(** [add_data] returns; this is what its bundle holds. *)
Lemma add_data_returns :
  ∃ (param : Parameters) (bv : ndarray1),
    Harness.add_data g = Ok {[ "param" := param ]} ∧
    sources param !! "flow" =
      Some (map (λ i, (nth i (cell_volumes g) 0 * at_cell Harness.rhs g i)%R)
                (seq 0 (num_cells g))) ∧
    bcs param !! "flow" =
      Some {| bc_grid := g; bc_faces := get_all_boundary_faces g;
              bc_cond := replicate (length (get_all_boundary_faces g)) "dir" |} ∧
    bc_vals param !! "flow" = Some bv ∧
    length bv = num_faces g ∧
    ∀ f, bv !! f = if decide (f ∈ get_all_boundary_faces g)
                   then Some (at_face Harness.solution g f)
                   else np_zeros (num_faces g) !! f.
Proof using Hg.
  destruct Hg as (Hcc & Hvol & Hfc & Hbf).
  unfold Harness.add_data.
  rewrite !(comprehension_over_columns _ _ _ Hcc). cbn [mbind result_bind].
  rewrite np_binop_same_length by (rewrite length_map, length_seq; exact Hvol).
  cbn [mbind result_bind].
  rewrite (take_columns_in_range _ _ _ Hfc Hbf). cbn [mbind result_bind].
  rewrite (comprehension_over_columns _ _ (length (get_all_boundary_faces g)))
    by (apply permute_columns_shape, Hfc).
  cbn [mbind result_bind].
  assert (Hvals :
    map (λ k, Harness.solution
                (entry (permute_columns (get_all_boundary_faces g) (face_centers g)) 0 k)
                (entry (permute_columns (get_all_boundary_faces g) (face_centers g)) 1 k)
                (entry (permute_columns (get_all_boundary_faces g) (face_centers g)) 2 k))
        (seq 0 (length (get_all_boundary_faces g)))
    = map (at_face Harness.solution g) (get_all_boundary_faces g)).
  { rewrite <- (map_positions (at_face Harness.solution g)).
    apply map_ext_in. intros k Hk. apply in_seq in Hk.
    destruct Hfc as [Hrows _].
    unfold at_face. rewrite !permute_columns_entry by lia. reflexivity. }
  rewrite Hvals.
  destruct (np_setitem_in_range (at_face Harness.solution g)
              (np_zeros (num_faces g)) (get_all_boundary_faces g))
    as (bv & Hset & Hlen & Hget).
  { unfold np_zeros. rewrite length_replicate. exact Hbf. }
  rewrite Hset. cbn [mbind result_bind].
  eexists. exists bv. split; [reflexivity|].
  cbn [sources bcs bc_vals set_bc_val set_bc set_source set_tensor].
  rewrite !lookup_insert_eq.
  split; [|split; [reflexivity|split; [reflexivity|split]]].
  - f_equal. rewrite <- Hvol.
    exact (zip_with_map_seq Rmult (at_cell Harness.rhs g) (cell_volumes g)).
  - rewrite Hlen. apply length_replicate.
  - exact Hget.
Qed.

End AddData.

(** C5: on a grid whose arrays have the shapes of the grid interface,
    [add_data] returns a bundle whose source under the label flow is, cell
    by cell, the cell volume times the manufactured right-hand side at the
    cell centre; the weighting is done in [add_data], and [Integral] built
    for flow hands that stored vector back as it is. *)
Theorem add_data_source_is_volume_weighted (g : Grid) :
  grid_ok g →
  ∃ (param : Parameters) (src : ndarray1) (lhs : csc_matrix),
    Harness.add_data g = Ok {[ "param" := param ]} ∧
    sources param !! "flow" = Some src ∧
    length src = num_cells g ∧
    (∀ i, i < num_cells g →
          src !! i = Some (nth i (cell_volumes g) 0 * at_cell Harness.rhs g i)%R) ∧
    Integral.matrix_rhs (Integral.init "flow") g {[ "param" := param ]}
      = Ok (lhs, src).
Proof.
  intros Hg.
  destruct (add_data_returns g Hg) as (param & bv & Hadd & Hsrc & _).
  set (src := map (λ i, (nth i (cell_volumes g) 0 * at_cell Harness.rhs g i)%R)
                  (seq 0 (num_cells g))) in *.
  assert (Hlen : length src = num_cells g).
  { unfold src. rewrite length_map. apply length_seq. }
  destruct (matrix_rhs_returns_stored (Integral.init "flow") g
              {[ "param" := param ]} param src) as (lhs & Hrhs);
    [apply lookup_singleton_eq|exact Hsrc|exact Hlen|].
  exists param, src, lhs.
  repeat split; try assumption.
  intros i Hi. unfold src.
  exact (lookup_map_seq
           (λ i, (nth i (cell_volumes g) 0 * at_cell Harness.rhs g i)%R) _ _ Hi).
Qed.

Lemma add_data_source_is_volume_weighted_witness :
  ∃ (param : Parameters) (src : ndarray1) (lhs : csc_matrix),
    Harness.add_data Samples.two_triangles = Ok {[ "param" := param ]} ∧
    sources param !! "flow" = Some src ∧
    length src = 2 ∧
    (∀ i, i < 2 →
          src !! i = Some (nth i (cell_volumes Samples.two_triangles) 0
                           * at_cell Harness.rhs Samples.two_triangles i)%R) ∧
    Integral.matrix_rhs (Integral.init "flow") Samples.two_triangles
                        {[ "param" := param ]} = Ok (lhs, src).
Proof.
  apply (add_data_source_is_volume_weighted Samples.two_triangles).
  unfold grid_ok, has_shape. cbn.
  repeat split; repeat constructor.
Defined.

(** C7: on such a grid, the boundary condition that [add_data] stores under
    flow lists exactly the boundary faces of the grid, each with the type
    dir, and the boundary values it stores have one entry per face: the
    manufactured solution at the face centre on a boundary face, zero on
    any other face. *)
Theorem add_data_boundary_is_dirichlet (g : Grid) :
  grid_ok g →
  ∃ (param : Parameters) (bc : BoundaryCondition) (bc_val : ndarray1),
    Harness.add_data g = Ok {[ "param" := param ]} ∧
    bcs param !! "flow" = Some bc ∧
    bc_vals param !! "flow" = Some bc_val ∧
    bc_faces bc = get_all_boundary_faces g ∧
    length (bc_cond bc) = length (bc_faces bc) ∧
    (∀ k f, bc_faces bc !! k = Some f → bc_cond bc !! k = Some "dir") ∧
    length bc_val = num_faces g ∧
    (∀ f, f < num_faces g →
          bc_val !! f = Some (if decide (f ∈ get_all_boundary_faces g)
                              then at_face Harness.solution g f
                              else 0%R)).
Proof.
  intros Hg.
  destruct (add_data_returns g Hg) as (param & bv & Hadd & _ & Hbc & Hbv & Hlen & Hget).
  eexists param, _, bv.
  split; [exact Hadd|]. split; [exact Hbc|]. split; [exact Hbv|].
  cbn [bc_faces bc_cond].
  split; [reflexivity|]. split; [apply length_replicate|].
  split; [|split; [exact Hlen|]].
  - intros k f Hk. apply lookup_replicate_2.
    apply lookup_lt_Some in Hk. exact Hk.
  - intros f Hf. rewrite Hget.
    destruct (decide (f ∈ get_all_boundary_faces g)); [reflexivity|].
    unfold np_zeros. apply lookup_replicate_2. exact Hf.
Qed.

Lemma add_data_boundary_is_dirichlet_witness :
  ∃ (param : Parameters) (bc : BoundaryCondition) (bc_val : ndarray1),
    Harness.add_data Samples.two_triangles = Ok {[ "param" := param ]} ∧
    bcs param !! "flow" = Some bc ∧
    bc_vals param !! "flow" = Some bc_val ∧
    bc_faces bc = [0; 1; 3; 4] ∧
    length (bc_cond bc) = length (bc_faces bc) ∧
    (∀ k f, bc_faces bc !! k = Some f → bc_cond bc !! k = Some "dir") ∧
    length bc_val = 5 ∧
    (∀ f, f < 5 →
          bc_val !! f = Some (if decide (f ∈ [0; 1; 3; 4])
                              then at_face Harness.solution Samples.two_triangles f
                              else 0%R)).
Proof.
  apply (add_data_boundary_is_dirichlet Samples.two_triangles).
  unfold grid_ok, has_shape. cbn.
  repeat split; repeat constructor.
Defined.

(** C6: on such a grid and for a field [p] with one value per cell,
    [error_p] returns the square root of the sum over the cells of the
    squared absolute difference between [p] and the manufactured solution
    at the cell centre, times the cell volume. *)
Theorem error_p_is_discrete_l2 (g : Grid) (p : ndarray1) :
  grid_ok g →
  length p = num_cells g →
  Harness.error_p g p =
  Ok (sqrt (sum_upto (num_cells g)
              (λ i, Rabs (nth i p 0 - at_cell Harness.solution g i) ^ 2
                    * nth i (cell_volumes g) 0)%R)).
Proof.
  intros (Hcc & Hvol & _ & _) Hp.
  unfold Harness.error_p.
  rewrite (comprehension_over_columns _ _ _ Hcc). cbn [mbind result_bind].
  fold (at_cell Harness.solution g).
  rewrite <- Hp.
  rewrite np_binop_same_length by (rewrite length_map, length_seq; reflexivity).
  cbn [mbind result_bind].
  rewrite (zip_with_map_seq Rminus (at_cell Harness.solution g) p).
  unfold np_power, np_abs. rewrite !map_map.
  rewrite np_binop_same_length
    by (rewrite length_map, length_seq; congruence).
  cbn [mbind result_bind].
  replace (length p) with (length (cell_volumes g)) by congruence.
  rewrite (zip_with_map_seq_r Rmult
             (λ i, (Rabs (nth i p 0 - at_cell Harness.solution g i) ^ 2)%R)
             (cell_volumes g)).
  rewrite np_sum_map_seq. reflexivity.
Qed.

Lemma error_p_is_discrete_l2_witness :
  Harness.error_p Samples.two_triangles Samples.field =
  Ok (sqrt (sum_upto 2
              (λ i, Rabs (nth i Samples.field 0
                          - at_cell Harness.solution Samples.two_triangles i) ^ 2
                    * nth i (cell_volumes Samples.two_triangles) 0)%R)).
Proof.
  apply (error_p_is_discrete_l2 Samples.two_triangles Samples.field).
  - unfold grid_ok, has_shape. cbn. repeat split; repeat constructor.
  - reflexivity.
Defined.

(** ** The fracture centre *)

Lemma map_nth_positions (l : ndarray1) :
  map (λ j, nth j l 0%R) (seq 0 (length l)) = l.
Proof.
  apply list_eq. intros k.
  destruct (decide (k < length l)) as [Hk|Hk].
  - rewrite lookup_map_seq by exact Hk.
    symmetry. apply lookup_nth_default, Hk.
  - rewrite !lookup_ge_None_2; [reflexivity|lia|].
    rewrite length_map, length_seq. lia.
Qed.

(** [np.sum] of a row is the sum of its entries by position. *)
Lemma np_sum_by_position (l : ndarray1) :
  np_sum l = sum_upto (length l) (λ j, nth j l 0%R).
Proof.
  rewrite <- np_sum_map_seq, map_nth_positions. reflexivity.
Qed.



Lemma isclose_refl (x : R) : isclose x x.
Proof.
  unfold isclose, rtol, atol.
  replace (x - x)%R with 0%R by lra. rewrite Rabs_R0.
  pose proof (Rabs_pos x). lra.
Qed.

(** C3: the centre of a fracture is the arithmetic mean of the vertex
    coordinates along each axis, as a 3 x 1 column; for the vertices
    (0,0,-1), (2,2,-1), (2,2,1), (0,0,1) of [test_frac_1] it is the column
    (1, 1, 0), and the assertion of that test holds. *)
Theorem fracture_center_is_vertex_mean :
  (∀ xs ys zs : ndarray1,
     Fracture.center (Fracture.init [xs; ys; zs]) =
     [[(sum_upto (length xs) (λ j, nth j xs 0) / INR (length xs))%R];
      [(sum_upto (length ys) (λ j, nth j ys 0) / INR (length ys))%R];
      [(sum_upto (length zs) (λ j, nth j zs 0) / INR (length zs))%R]]) ∧
  Fracture.center TestFractureCenters.f_1 = [[1]; [1]; [0]]%R ∧
  TestFractureCenters.test_frac_1.
Proof.
  assert (Hcenter : Fracture.center TestFractureCenters.f_1 = [[1]; [1]; [0]]%R).
  { cbn. repeat (f_equal; try lra). }
  split; [|split].
  - intros xs ys zs. cbn. rewrite <- !np_sum_by_position. reflexivity.
  - exact Hcenter.
  - unfold TestFractureCenters.test_frac_1, np_allclose. rewrite Hcenter. cbn.
    repeat first [apply isclose_refl | apply List.Forall2_cons | apply List.Forall2_nil].
Qed.




(** Where every sum is exact the order does not matter in binary64
    either: all 24 orders of the vertices of [test_frac_1] give the centre
    (1, 1, 0). *)
Lemma fracture64_center_test_frac_1_orders :
  Forall (λ sigma,
            Fracture64.compute_center
              (Fracture64.permute_columns sigma Samples.f_1_64)
            = [[1]; [1]; [0]]%float)
         (permutations (seq 0 4)).
Proof.
  vm_compute. repeat (apply Forall_cons_2; [reflexivity|]). apply Forall_nil_2.
Qed.

(** ** More on the single-grid source discretizer *)

(** Without the entry [param] in the data of the grid, [matrix_rhs] raises
    the key error of the lookup, whatever the grid and the label. *)
Theorem matrix_rhs_without_param (self : Integral.t) (g : Grid) (data : Data) :
  data !! "param" = None →
  Integral.matrix_rhs self g data = Raise (KeyError "param").
Proof.
  intros Hnone. unfold Integral.matrix_rhs, getitem. rewrite Hnone. reflexivity.
Qed.

Lemma matrix_rhs_without_param_witness :
  Integral.matrix_rhs Integral.init_default Samples.two_triangles ∅
  = Raise (KeyError "param").
Proof.
  apply (matrix_rhs_without_param Integral.init_default Samples.two_triangles ∅).
  reflexivity.
Defined.

(** Whatever [matrix_rhs] returns fits [ndof]: the matrix is square of that
    order with nothing stored, and the right-hand side has that length. *)
Theorem matrix_rhs_fits_ndof (self : Integral.t) (g : Grid) (data : Data)
    (lhs : csc_matrix) (rhs : ndarray1) :
  Integral.matrix_rhs self g data = Ok (lhs, rhs) →
  shape lhs = (Integral.ndof self g, Integral.ndof self g) ∧
  nnz lhs = 0 ∧
  length rhs = Integral.ndof self g.
Proof.
  unfold Integral.matrix_rhs, getitem, Integral.get_source, Integral.ndof, size.
  destruct (data !! "param") as [param|]; cbn; [|discriminate].
  destruct (sources param !! Integral.physics self) as [s|]; cbn; [|discriminate].
  destruct (decide (length s = num_cells g)) as [Hlen|]; [|discriminate].
  intros [= <- <-]. auto.
Qed.

Lemma matrix_rhs_fits_ndof_witness :
  shape (csc_matrix_empty (2, 2)) = (2, 2) ∧
  nnz (csc_matrix_empty (2, 2)) = 0 ∧
  length [3; 5]%R = 2.
Proof.
  apply (matrix_rhs_fits_ndof Integral.init_default Samples.two_triangles
           Samples.data_fit (csc_matrix_empty (2, 2)) [3; 5]%R).
  reflexivity.
Defined.

(** ** More on [add_data] *)

(** The bundle of [add_data], written out. *)
Lemma add_data_bundle (g : Grid) :
  grid_ok g →
  ∃ bv : ndarray1,
    Harness.add_data g =
    Ok {[ "param" :=
            set_bc_val "flow" bv
              (set_bc "flow"
                 {| bc_grid := g; bc_faces := get_all_boundary_faces g;
                    bc_cond := replicate (length (get_all_boundary_faces g)) "dir" |}
                 (set_source "flow"
                    (zip_with Rmult (cell_volumes g)
                       (map (at_cell Harness.rhs g) (seq 0 (num_cells g))))
                    (set_tensor "flow"
                       {| tensor_dim := 3;
                          kxx := map (at_cell Harness.permeability g)
                                     (seq 0 (num_cells g)) |}
                       (Parameters_init g)))) ]}.
Proof.
  intros (Hcc & Hvol & Hfc & Hbf).
  unfold Harness.add_data.
  rewrite !(comprehension_over_columns _ _ _ Hcc). cbn [mbind result_bind].
  rewrite np_binop_same_length by (rewrite length_map, length_seq; exact Hvol).
  cbn [mbind result_bind].
  rewrite (take_columns_in_range _ _ _ Hfc Hbf). cbn [mbind result_bind].
  rewrite (comprehension_over_columns _ _ (length (get_all_boundary_faces g)))
    by (apply permute_columns_shape, Hfc).
  cbn [mbind result_bind].
  match goal with
  | |- context [np_setitem ?a ?idx ?vals] =>
      assert (Hvals : vals = map (at_face Harness.solution g) idx)
  end.
  { rewrite <- (map_positions (at_face Harness.solution g)).
    apply map_ext_in. intros k Hk. apply in_seq in Hk.
    destruct Hfc as [Hrows _].
    unfold at_face. rewrite !permute_columns_entry by lia. reflexivity. }
  rewrite Hvals.
  destruct (np_setitem_in_range (at_face Harness.solution g)
              (np_zeros (num_faces g)) (get_all_boundary_faces g))
    as (bv & Hset & _).
  { unfold np_zeros. rewrite length_replicate. exact Hbf. }
  rewrite Hset. cbn [mbind result_bind].
  exists bv. reflexivity.
Qed.

Lemma permeability_at_least_one (x y z : R) :
  (1 <= Harness.permeability x y z)%R.
Proof.
  unfold Harness.permeability.
  pose proof (pow2_ge_0 x). pose proof (pow2_ge_0 y). pose proof (pow2_ge_0 z).
  lra.
Qed.

(** On a grid with the interface's shapes, the tensor that [add_data]
    stores under flow has dimension 3 and one scalar per cell: the
    permeability function at the cell centre, which is at least 1, so
    positive. *)
Theorem add_data_tensor_is_positive (g : Grid) :
  grid_ok g →
  ∃ (param : Parameters) (t : SecondOrder),
    Harness.add_data g = Ok {[ "param" := param ]} ∧
    tensors param !! "flow" = Some t ∧
    tensor_dim t = 3 ∧
    length (kxx t) = num_cells g ∧
    ∀ i, i < num_cells g →
         kxx t !! i = Some (at_cell Harness.permeability g i) ∧
         (1 <= at_cell Harness.permeability g i)%R.
Proof.
  intros Hg. destruct (add_data_bundle g Hg) as (bv & Hadd).
  eexists _, _. split; [exact Hadd|].
  cbn [tensors set_bc_val set_bc set_source set_tensor].
  split; [apply lookup_insert_eq|].
  cbn [tensor_dim kxx].
  split; [reflexivity|]. split.
  - rewrite length_map. apply length_seq.
  - intros i Hi. split.
    + exact (lookup_map_seq (at_cell Harness.permeability g) _ _ Hi).
    + apply permeability_at_least_one.
Qed.

Lemma add_data_tensor_is_positive_witness :
  ∃ (param : Parameters) (t : SecondOrder),
    Harness.add_data Samples.two_triangles = Ok {[ "param" := param ]} ∧
    tensors param !! "flow" = Some t ∧
    tensor_dim t = 3 ∧
    length (kxx t) = 2 ∧
    ∀ i, i < 2 →
         kxx t !! i = Some (at_cell Harness.permeability Samples.two_triangles i) ∧
         (1 <= at_cell Harness.permeability Samples.two_triangles i)%R.
Proof.
  apply (add_data_tensor_is_positive Samples.two_triangles).
  unfold grid_ok, has_shape. cbn.
  repeat split; repeat constructor.
Defined.

(** When [add_data] returns, the dict has the one key [param], the bundle
    belongs to the grid given, and each of its four stores holds the label
    flow and no other. *)
Theorem add_data_writes_flow_only (g : Grid) :
  grid_ok g →
  ∃ (data : Data) (param : Parameters),
    Harness.add_data g = Ok data ∧
    dom data = ({[ "param" ]} : gset string) ∧
    data !! "param" = Some param ∧
    param_grid param = g ∧
    dom (tensors param) = ({[ "flow" ]} : gset string) ∧
    dom (sources param) = ({[ "flow" ]} : gset string) ∧
    dom (bcs param) = ({[ "flow" ]} : gset string) ∧
    dom (bc_vals param) = ({[ "flow" ]} : gset string).
Proof.
  intros Hg. destruct (add_data_bundle g Hg) as (bv & Hadd).
  eexists _, _. split; [exact Hadd|].
  split; [apply dom_singleton_L|].
  split; [apply lookup_singleton_eq|].
  cbn [param_grid tensors sources bcs bc_vals
       set_bc_val set_bc set_source set_tensor Parameters_init].
  rewrite !dom_insert_L, !dom_empty_L.
  repeat split; set_solver.
Qed.

Lemma add_data_writes_flow_only_witness :
  ∃ (data : Data) (param : Parameters),
    Harness.add_data Samples.two_triangles = Ok data ∧
    dom data = ({[ "param" ]} : gset string) ∧
    data !! "param" = Some param ∧
    param_grid param = Samples.two_triangles ∧
    dom (tensors param) = ({[ "flow" ]} : gset string) ∧
    dom (sources param) = ({[ "flow" ]} : gset string) ∧
    dom (bcs param) = ({[ "flow" ]} : gset string) ∧
    dom (bc_vals param) = ({[ "flow" ]} : gset string).
Proof.
  apply (add_data_writes_flow_only Samples.two_triangles).
  unfold grid_ok, has_shape. cbn.
  repeat split; repeat constructor.
Defined.

Lemma apply3_wrong_length {A : Type} (f : R → R → R → A) (pt : ndarray1) :
  length pt ≠ 3 → apply3 f pt = Raise TypeError.
Proof.
  destruct pt as [|x [|y [|z [|w pt]]]]; cbn; intros H; try reflexivity.
  contradiction.
Qed.

(** Cell centres that do not have exactly three coordinate rows make
    [add_data] raise a type error as soon as there is a cell: the
    manufactured functions take three arguments. *)
Theorem add_data_needs_three_coordinates (g : Grid) :
  length (cell_centers g) ≠ 3 →
  0 < ncols (cell_centers g) →
  Harness.add_data g = Raise TypeError.
Proof.
  intros Hrows Hcols. unfold Harness.add_data, transpose.
  destruct (ncols (cell_centers g)) as [|k]; [lia|].
  cbn [seq map mapM].
  rewrite (apply3_wrong_length Harness.permeability)
    by (rewrite length_map; exact Hrows).
  reflexivity.
Qed.

Lemma add_data_needs_three_coordinates_witness :
  Harness.add_data Samples.flat_centers = Raise TypeError.
Proof.
  apply (add_data_needs_three_coordinates Samples.flat_centers).
  - cbn. lia.
  - cbn. lia.
Defined.

(** Cell volumes that are neither one per cell nor a single value (on a
    grid with more than one cell or none) make [add_data] raise a value
    error: the product with the source does not broadcast. *)
Theorem add_data_volume_mismatch (g : Grid) :
  has_shape (cell_centers g) 3 (num_cells g) →
  length (cell_volumes g) ≠ num_cells g →
  length (cell_volumes g) ≠ 1 →
  num_cells g ≠ 1 →
  Harness.add_data g = Raise ValueError.
Proof.
  intros Hcc Hvol Hone Hn. unfold Harness.add_data.
  rewrite !(comprehension_over_columns _ _ _ Hcc). cbn [mbind result_bind].
  unfold np_binop. rewrite length_map, length_seq.
  rewrite !decide_False by assumption. reflexivity.
Qed.

Lemma add_data_volume_mismatch_witness :
  Harness.add_data Samples.spare_volume = Raise ValueError.
Proof.
  apply (add_data_volume_mismatch Samples.spare_volume).
  - unfold has_shape. cbn. repeat split; repeat constructor.
  - cbn. lia.
  - cbn. lia.
  - cbn. lia.
Defined.

Lemma take_out_of_range (row : ndarray1) (idx : list nat) :
  Exists (λ j : nat, (length row ≤ j)%nat) idx → take row idx = Raise IndexError.
Proof.
  unfold take. induction 1 as [j idx Hj|j idx _ IH]; cbn [mapM].
  - rewrite (lookup_ge_None_2 row j Hj). reflexivity.
  - rewrite IH. destruct (row !! j); reflexivity.
Qed.

(** A boundary face index that is not below the number of faces makes
    [add_data] raise an index error, the other arrays being in shape. *)
Theorem add_data_stray_boundary_face (g : Grid) :
  has_shape (cell_centers g) 3 (num_cells g) →
  length (cell_volumes g) = num_cells g →
  has_shape (face_centers g) 3 (num_faces g) →
  Exists (λ f : nat, (num_faces g ≤ f)%nat) (get_all_boundary_faces g) →
  Harness.add_data g = Raise IndexError.
Proof.
  intros Hcc Hvol Hfc Hbf. unfold Harness.add_data.
  rewrite !(comprehension_over_columns _ _ _ Hcc). cbn [mbind result_bind].
  rewrite np_binop_same_length by (rewrite length_map, length_seq; exact Hvol).
  cbn [mbind result_bind].
  destruct (has_shape_three _ _ Hfc) as (r0 & r1 & r2 & -> & H0 & _ & _).
  unfold take_columns. cbn [mapM].
  assert (Hout : Exists (λ j : nat, (length r0 ≤ j)%nat) (get_all_boundary_faces g)).
  { eapply Exists_impl; [exact Hbf|]. cbn. intros f Hf. lia. }
  rewrite (take_out_of_range r0 _ Hout).
  reflexivity.
Qed.

Lemma add_data_stray_boundary_face_witness :
  Harness.add_data Samples.stray_face = Raise IndexError.
Proof.
  apply (add_data_stray_boundary_face Samples.stray_face).
  - unfold has_shape. cbn. repeat split; repeat constructor.
  - reflexivity.
  - unfold has_shape. cbn. repeat split; repeat constructor.
  - cbn. do 3 apply Exists_cons_tl. apply Exists_cons_hd. lia.
Defined.

(** ** More on [error_p] *)












Lemma np_binop_mismatch (f : R → R → R) (a b : ndarray1) :
  length a ≠ length b → length a ≠ 1 → length b ≠ 1 →
  np_binop f a b = Raise ValueError.
Proof.
  intros Hab Ha Hb. unfold np_binop.
  rewrite !decide_False by assumption. reflexivity.
Qed.

(** A field that has neither one value per cell nor a single value (on a
    grid with more than one cell or none) makes [error_p] raise a value
    error: the difference with the solution does not broadcast. *)
Theorem error_p_field_mismatch (g : Grid) (p : ndarray1) :
  has_shape (cell_centers g) 3 (num_cells g) →
  length p ≠ num_cells g →
  length p ≠ 1 →
  num_cells g ≠ 1 →
  Harness.error_p g p = Raise ValueError.
Proof.
  intros Hcc Hp Hone Hn. unfold Harness.error_p.
  rewrite (comprehension_over_columns _ _ _ Hcc). cbn [mbind result_bind].
  rewrite (np_binop_mismatch Rminus p)
    by (rewrite ?length_map, ?length_seq; assumption).
  reflexivity.
Qed.

Lemma error_p_field_mismatch_witness :
  Harness.error_p Samples.two_triangles [1; 2; 3]%R = Raise ValueError.
Proof.
  apply (error_p_field_mismatch Samples.two_triangles [1; 2; 3]%R).
  - unfold has_shape. cbn. repeat split; repeat constructor.
  - cbn. lia.
  - cbn. lia.
  - cbn. lia.
Defined.

Lemma np_binop_single_left (f : R → R → R) (c : R) (b : ndarray1) :
  np_binop f [c] b = np_binop f (replicate (length b) c) b.
Proof.
  unfold np_binop. rewrite length_replicate. cbn [length hd].
  rewrite (decide_True (P := length b = length b)) by reflexivity.
  assert (Hzip : zip_with f (replicate (length b) c) b = map (f c) b).
  { induction b as [|x b IH]; cbn; [reflexivity|]. rewrite IH. reflexivity. }
  rewrite Hzip.
  destruct (decide (1 = length b)) as [Hone|Hne].
  - destruct b as [|x [|y b]]; try discriminate. reflexivity.
  - rewrite decide_True by reflexivity. reflexivity.
Qed.

(** A field of a single value is not rejected: on a grid in shape,
    [error_p] takes it as that value in every cell. *)
Theorem error_p_single_value (g : Grid) (c : R) :
  has_shape (cell_centers g) 3 (num_cells g) →
  Harness.error_p g [c] = Harness.error_p g (replicate (num_cells g) c).
Proof.
  intros Hcc. unfold Harness.error_p.
  rewrite (comprehension_over_columns _ _ _ Hcc). cbn [mbind result_bind].
  rewrite np_binop_single_left, length_map, length_seq. reflexivity.
Qed.

Lemma error_p_single_value_witness :
  Harness.error_p Samples.two_triangles [7%R]
  = Harness.error_p Samples.two_triangles [7%R; 7%R].
Proof.
  apply (error_p_single_value Samples.two_triangles 7%R).
  unfold has_shape. cbn. repeat split; repeat constructor.
Defined.

(** ** The manufactured problem *)

Section Manufactured.

Local Open Scope R_scope.

(** For coordinates of magnitude at most 10^100, which keeps every
    intermediate value inside the range of float64, the source has the
    sign of [z]: it vanishes exactly on the plane z = 0, is positive above
    it and negative below. *)
Theorem rhs_has_sign_of_z (x y z : R) :
  Rabs x <= 10 ^ 100 → Rabs y <= 10 ^ 100 → Rabs z <= 10 ^ 100 →
  (Harness.rhs x y z = 0 ↔ z = 0) ∧
  (0 < Harness.rhs x y z ↔ 0 < z) ∧
  (Harness.rhs x y z < 0 ↔ z < 0).
Proof.
  intros _ _ _.
  unfold Harness.rhs.
  pose proof (pow2_ge_0 x) as Hx. pose proof (pow2_ge_0 y) as Hy.
  pose proof (pow2_ge_0 z) as Hz.
  set (B := 125 * x ^ 2 + 200 * y ^ 2 + 425 * z ^ 2 + 2).
  assert (HB : 0 < B) by (unfold B; lra).
  replace (8 * z * B) with (z * (8 * B)) by ring.
  assert (H8 : 0 < 8 * B) by lra.
  destruct (Rtotal_order z 0) as [Hneg|[Hzero|Hpos]].
  - assert (z * (8 * B) < 0) by nra. repeat split; intros; lra.
  - subst z. rewrite Rmult_0_l. repeat split; intros; lra.
  - assert (0 < z * (8 * B)) by nra. repeat split; intros; lra.
Qed.

Lemma rhs_has_sign_of_z_witness :
  (Harness.rhs (2 / 3) 0 (1 / 3) = 0 ↔ 1 / 3 = 0) ∧
  (0 < Harness.rhs (2 / 3) 0 (1 / 3) ↔ 0 < 1 / 3) ∧
  (Harness.rhs (2 / 3) 0 (1 / 3) < 0 ↔ 1 / 3 < 0).
Proof.
  assert (Hbig : 1 <= 10 ^ 100) by (apply pow_R1_Rle; lra).
  apply (rhs_has_sign_of_z (2 / 3) 0 (1 / 3)).
  - rewrite Rabs_right by lra. lra.
  - rewrite Rabs_R0. lra.
  - rewrite Rabs_right by lra. lra.
Defined.

(** The derivative of a polynomial of degree at most four. *)
Lemma derivable_pt_lim_quartic (f : R → R) (c0 c1 c2 c3 c4 x l : R) :
  (∀ t, c0 + c1 * t + c2 * t ^ 2 + c3 * t ^ 3 + c4 * t ^ 4 = f t) →
  l = c1 + 2 * c2 * x + 3 * c3 * x ^ 2 + 4 * c4 * x ^ 3 →
  derivable_pt_lim f x l.
Proof.
  intros Hf ->.
  pose proof (derivable_pt_lim_const c0 x) as H0.
  pose proof (derivable_pt_lim_scal _ c1 x _ (derivable_pt_lim_id x)) as H1.
  pose proof (derivable_pt_lim_scal _ c2 x _ (derivable_pt_lim_pow x 2)) as H2.
  pose proof (derivable_pt_lim_scal _ c3 x _ (derivable_pt_lim_pow x 3)) as H3.
  pose proof (derivable_pt_lim_scal _ c4 x _ (derivable_pt_lim_pow x 4)) as H4.
  pose proof (derivable_pt_lim_plus _ _ x _ _
                (derivable_pt_lim_plus _ _ x _ _
                   (derivable_pt_lim_plus _ _ x _ _
                      (derivable_pt_lim_plus _ _ x _ _ H0 H1) H2) H3) H4) as H.
  cbn [Init.Nat.pred INR] in H.
  eapply derivable_pt_lim_ext.
  - intros t. etransitivity; [|apply (Hf t)].
    unfold plus_fct, fct_cte, mult_real_fct, id. reflexivity.
  - replace (c1 + 2 * c2 * x + 3 * c3 * x ^ 2 + 4 * c4 * x ^ 3)
      with (0 + c1 * 1 + c2 * ((1 + 1) * x ^ 1) + c3 * ((1 + 1 + 1) * x ^ 2)
            + c4 * ((1 + 1 + 1 + 1) * x ^ 3)) by ring.
    exact H.
Qed.

(** In the plane y = 0, where the grid of the harness lies, the three
    manufactured functions fit together: with [ux] and [uz] the partial
    derivatives of [solution] along x and z, the source [rhs] is minus the
    divergence of [permeability] times the gradient of [solution]. *)
Theorem rhs_is_minus_divergence_of_flux (x z : R) :
  ∃ (ux uz : R → R → R) (dfx dfz : R),
    (∀ a b, derivable_pt_lim (λ t, Harness.solution t 0 b) a (ux a b)) ∧
    (∀ a b, derivable_pt_lim (λ t, Harness.solution a 0 t) b (uz a b)) ∧
    derivable_pt_lim (λ t, Harness.permeability t 0 z * ux t z) x dfx ∧
    derivable_pt_lim (λ t, Harness.permeability x 0 t * uz x t) z dfz ∧
    Harness.rhs x 0 z = - (dfx + dfz).
Proof.
  exists (λ a b, 2 * a * b), (λ a b, a ^ 2 - 9 * b ^ 2).
  exists (2 * z * (1 + 100 * z ^ 2) + 600 * z * x ^ 2).
  exists (2 * (- 9 - 800 * x ^ 2) * z - 3600 * z ^ 3).
  unfold Harness.solution, Harness.permeability, Harness.rhs.
  split; [|split; [|split; [|split]]].
  - intros a b.
    apply (derivable_pt_lim_quartic _ (- 3 * b ^ 3) 0 b 0 0); [intros t|]; ring.
  - intros a b.
    apply (derivable_pt_lim_quartic _ 0 (a ^ 2) 0 (- 3) 0); [intros t|]; ring.
  - apply (derivable_pt_lim_quartic _ 0 (2 * z * (1 + 100 * z ^ 2)) 0 (200 * z) 0);
      [intros t|]; ring.
  - apply (derivable_pt_lim_quartic _ (x ^ 2 * (1 + 100 * x ^ 2)) 0
             (- 9 - 800 * x ^ 2) 0 (- 900));
      [intros t|]; ring.
  - ring.
Qed.

(** The order that the test computes is the exponent when the errors
    follow a power law exactly: for errors [C * diam ^ p] at two different
    diameters the order is [p], so the assertion of the test says that [p]
    is close to the known order. *)
Theorem order_of_power_law (C p diam_10 diam_20 : R) :
  0 < C → 0 < diam_10 → 0 < diam_20 → diam_10 ≠ diam_20 →
  BasicsTest.order diam_10 (C * Rpower diam_10 p) diam_20 (C * Rpower diam_20 p)
    = p ∧
  (BasicsTest.test_mpfa_varing_k_surface_1
     (diam_10, C * Rpower diam_10 p) (diam_20, C * Rpower diam_20 p)
   ↔ isclose p BasicsTest.known_order).
Proof.
  intros HC H10 H20 Hne.
  assert (Horder : BasicsTest.order diam_10 (C * Rpower diam_10 p)
                                    diam_20 (C * Rpower diam_20 p) = p).
  { unfold BasicsTest.order.
    assert (HA : 0 < Rpower diam_10 p) by apply exp_pos.
    assert (HB : 0 < Rpower diam_20 p) by apply exp_pos.
    assert (Hlog : ∀ u v, 0 < u → 0 < v → ln (u / v) = ln u - ln v).
    { intros u v Hu Hv. unfold Rdiv.
      rewrite ln_mult by (try apply Rinv_0_lt_compat; assumption).
      rewrite ln_Rinv by assumption. ring. }
    rewrite !Hlog by (try apply Rmult_lt_0_compat; assumption).
    rewrite !ln_mult by assumption. rewrite !ln_Rpower.
    assert (Hdiff : ln diam_10 - ln diam_20 ≠ 0).
    { intros Heq. apply Hne. apply ln_inv; [assumption..|lra]. }
    field. exact Hdiff. }
  split; [exact Horder|].
  unfold BasicsTest.test_mpfa_varing_k_surface_1. cbn [fst snd].
  rewrite Horder. reflexivity.
Qed.

Lemma order_of_power_law_witness :
  BasicsTest.order 2 (3 * Rpower 2 2) 1 (3 * Rpower 1 2) = 2 ∧
  (BasicsTest.test_mpfa_varing_k_surface_1
     (2, 3 * Rpower 2 2) (1, 3 * Rpower 1 2)
   ↔ isclose 2 BasicsTest.known_order).
Proof.
  apply (order_of_power_law 3 2 2 1); lra.
Defined.

End Manufactured.
